(** * Organising photos chronologically: a shallow embedding

    The notebook [01_organize_photos_chronologically.ipynb] renames shortlisted
    photos after the local time encoded in their file names (first pass, cell
    "Solution"), and then stores that time in the EXIF DateTimeOriginal tag
    (second pass).  This file embeds both passes, together with the parts of
    the Python standard library they call ([str] slicing, [int], [datetime]),
    and states the properties of the specification over that embedding. *)

From Stdlib Require Import ZArith Lia Ascii String List Bool.
From stdpp Require Import base option gmap strings list.

Local Open Scope string_scope.
Local Open Scope Z_scope.

(** ** Exceptions and results of Python code *)

Module Py.

(** The exception classes the notebook can meet. *)
Inductive exn : Set :=
  | ValueError | KeyError | TypeError | OverflowError | AttributeError
  | ReError | ShutilError.

(** A Python computation returns, raises, or leaves the fragment of the
    library that is modelled here ([Unsupported]: a [strftime] directive that
    the platform's C library interprets). *)
Inductive outcome (A : Type) : Type :=
  | Ok (a : A)
  | Raise (e : exn)
  | Unsupported.
Arguments Ok {A} a.
Arguments Raise {A} e.
Arguments Unsupported {A}.

#[global] Instance outcome_ret : MRet outcome := fun A a => Ok a.
#[global] Instance outcome_bind : MBind outcome := fun A B f m =>
  match m with
  | Ok a => f a
  | Raise e => Raise e
  | Unsupported => Unsupported
  end.

#[global] Instance exn_eq_dec : EqDecision exn.
Proof. solve_decision. Defined.

(** [try: m except e: h] *)
Definition try_except {A} (m : outcome A) (e : exn) (h : outcome A) : outcome A :=
  match m with
  | Raise e' => if decide (e' = e) then h else Raise e'
  | _ => m
  end.

(** ** Strings *)

(** A [str] is a [string] here: file names are taken to have their
    characters below code point 256. *)

(** [s[a:b]] for [0 <= a <= b]: the slice is clamped to the string. *)
Definition slice (a b : nat) (s : string) : string := substring a (b - a) s.

(** [sub in s] *)
Definition contains (sub s : string) : bool :=
  match index 0 sub s with Some _ => true | None => false end.

Definition code (c : ascii) : Z := Z.of_N (N_of_ascii c).

Definition is_digit (c : ascii) : bool := (48 <=? code c) && (code c <=? 57).

Definition digit_val (c : ascii) : Z := code c - 48.

Definition digit_char (d : Z) : ascii := ascii_of_N (Z.to_N (48 + d)).

(** White space below code point 256: what [int] strips, and what the
    class [\s] of [re] matches. *)
Definition is_space (c : ascii) : bool :=
  ((9 <=? code c) && (code c <=? 13)) || (code c =? 32)
  || (code c =? 133) || (code c =? 160).

Definition re_space (c : ascii) : bool :=
  is_space c || ((28 <=? code c) && (code c <=? 31)).

Definition in_range (lo hi : ascii) (c : ascii) : bool :=
  (code lo <=? code c) && (code c <=? code hi).

Fixpoint all_space (s : string) : bool :=
  match s with
  | EmptyString => true
  | String c s' => is_space c && all_space s'
  end.

Fixpoint lstrip (s : string) : string :=
  match s with
  | EmptyString => EmptyString
  | String c s' => if is_space c then lstrip s' else s
  end.

(** The digits of an [int] literal: decimal digits, single underscores only
    between two digits, trailing white space allowed.  [after_digit] tells
    whether the previous character was a digit. *)
Fixpoint int_digits (acc : Z) (after_digit : bool) (s : string) : option Z :=
  match s with
  | EmptyString => if after_digit then Some acc else None
  | String c s' =>
      if is_digit c then int_digits (10 * acc + digit_val c) true s'
      else if after_digit && Ascii.eqb c "_" then int_digits acc false s'
      else if after_digit && all_space s then Some acc
      else None
  end.

(** [int(s)] on a [str], base ten. *)
Definition int (s : string) : outcome Z :=
  let body :=
    match lstrip s with
    | String "-" s' => option_map Z.opp (int_digits 0 false s')
    | String "+" s' => int_digits 0 false s'
    | s' => int_digits 0 false s'
    end in
  match body with
  | Some n => Ok n
  | None => Raise ValueError
  end.

(** [str(x)] of an optional string, as an f-string renders it. *)
Definition str_of_option (x : option string) : string :=
  match x with Some s => s | None => "None" end.

(** ** Bounded checks *)

(** [p] holds of every integer from [0] below [n]. *)
Fixpoint forall_upto (n : nat) (p : Z → bool) : bool :=
  match n with
  | O => true
  | S k => p (Z.of_nat k) && forall_upto k p
  end.

End Py.
Export Py.

(** ** The [datetime] module *)

Module Datetime.

(** A naive [datetime] object. *)
Record datetime : Set := mk_datetime {
  year : Z; month : Z; day : Z;
  hour : Z; minute : Z; second : Z; microsecond : Z
}.

(** A normalised [timedelta]. *)
Record timedelta : Set := mk_timedelta {
  td_days : Z; td_seconds : Z; td_microseconds : Z
}.

Definition MINYEAR : Z := 1.
Definition MAXYEAR : Z := 9999.
Definition MAXORDINAL : Z := 3652059.

Definition DAYS_IN_MONTH : list Z :=
  [-1; 31; 28; 31; 30; 31; 30; 31; 31; 30; 31; 30; 31].
Definition DAYS_BEFORE_MONTH : list Z :=
  [-1; 0; 31; 59; 90; 120; 151; 181; 212; 243; 273; 304; 334].

Definition DI400Y : Z := 146097.
Definition DI100Y : Z := 36524.
Definition DI4Y : Z := 1461.

Definition table (l : list Z) (i : Z) : Z := nth (Z.to_nat i) l 0.

Definition is_leap (y : Z) : bool :=
  (y mod 4 =? 0) && (negb (y mod 100 =? 0) || (y mod 400 =? 0)).

Definition days_before_year (y : Z) : Z :=
  let y := y - 1 in y * 365 + y / 4 - y / 100 + y / 400.

Definition days_in_month (y m : Z) : Z :=
  if (m =? 2) && is_leap y then 29 else table DAYS_IN_MONTH m.

Definition days_before_month (y m : Z) : Z :=
  table DAYS_BEFORE_MONTH m + (if (2 <? m) && is_leap y then 1 else 0).

Definition ymd2ord (y m d : Z) : Z :=
  days_before_year y + days_before_month y m + d.

(** Month and day of the [n]-th day (from 0) of a year, leap or not. *)
Definition month_day (leapyear : bool) (n : Z) : Z * Z :=
  let month := Z.shiftr (n + 50) 5 in
  let preceding :=
    table DAYS_BEFORE_MONTH month + (if (2 <? month) && leapyear then 1 else 0) in
  if n <? preceding then
    let month := month - 1 in
    let preceding :=
      preceding - (table DAYS_IN_MONTH month
                   + (if (month =? 2) && leapyear then 1 else 0)) in
    (month, n - preceding + 1)
  else (month, n - preceding + 1).

(** Ordinal to (year, month, day), with ordinal 1 the first of January of
    year 1. *)
Definition ord2ymd (n : Z) : Z * Z * Z :=
  let n := n - 1 in
  let n400 := n / DI400Y in
  let n := n mod DI400Y in
  let year := n400 * 400 + 1 in
  let n100 := n / DI100Y in
  let n := n mod DI100Y in
  let n4 := n / DI4Y in
  let n := n mod DI4Y in
  let n1 := n / 365 in
  let n := n mod 365 in
  let year := year + n100 * 100 + n4 * 4 + n1 in
  if (n1 =? 4) || (n100 =? 4) then (year - 1, 12, 31)
  else
    let leapyear := (n1 =? 3) && (negb (n4 =? 24) || (n100 =? 3)) in
    let '(month, d) := month_day leapyear n in
    (year, month, d).

(** What [ord2ymd] promises of [month_day]. *)
Definition month_day_ok (leapyear : bool) (n : Z) : bool :=
  let '(m, d) := month_day leapyear n in
  (1 <=? m) && (m <=? 12) && (1 <=? d)
  && (d <=? if (m =? 2) && leapyear then 29 else table DAYS_IN_MONTH m).

(** The checks of the [datetime] constructor. *)
Definition valid_date (y m d : Z) : bool :=
  (MINYEAR <=? y) && (y <=? MAXYEAR) && (1 <=? m) && (m <=? 12)
  && (1 <=? d) && (d <=? days_in_month y m).

Definition valid_time (h mi s us : Z) : bool :=
  (0 <=? h) && (h <? 24) && (0 <=? mi) && (mi <? 60)
  && (0 <=? s) && (s <? 60) && (0 <=? us) && (us <? 1000000).

Definition valid (t : datetime) : bool :=
  valid_date (year t) (month t) (day t)
  && valid_time (hour t) (minute t) (second t) (microsecond t).

(** [datetime(y, m, d, h, mi, s, us)] *)
Definition new_datetime (y m d h mi s us : Z) : outcome datetime :=
  let t := mk_datetime y m d h mi s us in
  if valid t then Ok t else Raise ValueError.

Definition toordinal (t : datetime) : Z := ymd2ord (year t) (month t) (day t).

(** [timedelta(hours=h)] *)
Definition timedelta_hours (h : Z) : timedelta :=
  mk_timedelta ((h * 3600) / 86400) ((h * 3600) mod 86400) 0.

(** [t + d]: the sum is taken on (days, seconds, microseconds) with the
    ordinal of [t] as its days, and is refused outside years 1 to 9999. *)
Definition add (t : datetime) (d : timedelta) : outcome datetime :=
  let us := microsecond t + td_microseconds d in
  let s := hour t * 3600 + minute t * 60 + second t + td_seconds d
           + us / 1000000 in
  let days := toordinal t + td_days d + s / 86400 in
  let s := s mod 86400 in
  if (0 <? days) && (days <=? MAXORDINAL) then
    let '(y, m, dd) := ord2ymd days in
    Ok (mk_datetime y m dd (s / 3600) (s mod 3600 / 60) (s mod 3600 mod 60)
          (us mod 1000000))
  else Raise OverflowError.

(** [datetime.utcfromtimestamp(ms / 1000)] for an integer count [ms] of
    milliseconds.  Python divides in floating point and rounds the fraction
    to microseconds; for [0 <= ms < 2^31 * 1000] a double lies within
    0.12 microseconds of the quotient, so the seconds are [ms / 1000] and
    the microseconds [(ms mod 1000) * 1000], which is what is written here. *)
Definition utcfromtimestamp_ms (ms : Z) : outcome datetime :=
  let secs := ms / 1000 in
  let us := (ms mod 1000) * 1000 in
  let days := 719163 + secs / 86400 in
  let s := secs mod 86400 in
  if (0 <? days) && (days <=? MAXORDINAL) then
    let '(y, m, d) := ord2ymd days in
    Ok (mk_datetime y m d (s / 3600) (s mod 3600 / 60) (s mod 3600 mod 60) us)
  else Raise ValueError.

(** *** [strftime] *)

Definition pad2 (n : Z) : string :=
  String (digit_char (n / 10 mod 10)) (String (digit_char (n mod 10)) EmptyString).

Definition pad4 (n : Z) : string :=
  String (digit_char (n / 1000 mod 10))
    (String (digit_char (n / 100 mod 10)) (pad2 n)).

(** The directives the notebook uses, zero padded to their width, and [%%].
    [%Y] is padded to four digits, as the C library of macOS does (the
    notebook needs macOS for [osxmetadata]); below year 1000 glibc does not
    pad. *)
Definition directive (t : datetime) (c : ascii) : outcome string :=
  if Ascii.eqb c "Y" then Ok (pad4 (year t))
  else if Ascii.eqb c "m" then Ok (pad2 (month t))
  else if Ascii.eqb c "d" then Ok (pad2 (day t))
  else if Ascii.eqb c "H" then Ok (pad2 (hour t))
  else if Ascii.eqb c "M" then Ok (pad2 (minute t))
  else if Ascii.eqb c "S" then Ok (pad2 (second t))
  else if Ascii.eqb c "%" then Ok "%"
  else Unsupported.

(** [t.strftime(fmt)] *)
Fixpoint strftime (t : datetime) (fmt : string) : outcome string :=
  match fmt with
  | EmptyString => Ok EmptyString
  | String c rest =>
      if Ascii.eqb c "%" then
        match rest with
        | EmptyString => Unsupported
        | String d rest' =>
            s ← directive t d; r ← strftime t rest'; Ok (s ++ r)%string
        end
      else r ← strftime t rest; Ok (String c r)
  end.

(** *** [strptime] *)

(** The regular expression of a format is a sequence of tokens; a directive
    is a named group made of alternatives, each a sequence of character
    classes. *)
Inductive token : Set :=
  | TDir (c : ascii)
  | TLit (c : ascii)
  | TSpaces.

Definition cls : Type := ascii → bool.
Definition one (c : ascii) : cls := Ascii.eqb c.
Definition digit : cls := is_digit.

Definition regex_of (c : ascii) : option (list (list cls)) :=
  if Ascii.eqb c "Y" then Some [[digit; digit; digit; digit]]
  else if Ascii.eqb c "m" then
    Some [[one "1"; in_range "0" "2"]; [one "0"; in_range "1" "9"];
          [in_range "1" "9"]]
  else if Ascii.eqb c "d" then
    Some [[one "3"; in_range "0" "1"]; [in_range "1" "2"; digit];
          [one "0"; in_range "1" "9"]; [in_range "1" "9"];
          [one " "; in_range "1" "9"]]
  else if Ascii.eqb c "H" then
    Some [[one "2"; in_range "0" "3"]; [in_range "0" "1"; digit]; [digit]]
  else if Ascii.eqb c "M" then
    Some [[in_range "0" "5"; digit]; [digit]]
  else if Ascii.eqb c "S" then
    Some [[one "6"; in_range "0" "1"]; [in_range "0" "5"; digit]; [digit]]
  else None.

Definition lower (c : ascii) : ascii :=
  if in_range "A" "Z" c then ascii_of_N (Z.to_N (code c + 32)) else c.

Fixpoint collapse (ts : list token) : list token :=
  match ts with
  | TSpaces :: ((TSpaces :: _) as ts') => collapse ts'
  | t :: ts' => t :: collapse ts'
  | [] => []
  end.

Fixpoint tokens_of (fmt : string) : outcome (list token) :=
  match fmt with
  | EmptyString => Ok []
  | String c rest =>
      if Ascii.eqb c "%" then
        match rest with
        | EmptyString => Raise ValueError
        | String d rest' =>
            if Ascii.eqb d "%" then ts ← tokens_of rest'; Ok (TLit "%" :: ts)
            else match regex_of d with
                 | Some _ => ts ← tokens_of rest'; Ok (TDir d :: ts)
                 | None => Raise ValueError
                 end
        end
      else
        ts ← tokens_of rest;
        Ok ((if re_space c then TSpaces else TLit c) :: ts)
  end.

(** A sequence of classes at the head of [s]: the text matched and the rest. *)
Fixpoint match_seq (cs : list cls) (s : string) : option (string * string) :=
  match cs, s with
  | [], _ => Some (EmptyString, s)
  | k :: cs', String c s' =>
      if k c then
        match match_seq cs' s' with
        | Some (m, r) => Some (String c m, r)
        | None => None
        end
      else None
  | _ :: _, EmptyString => None
  end.

(** All the ways to leave a run of one or more white space characters, the
    longest first. *)
Fixpoint match_spaces (s : string) : list string :=
  match s with
  | String c s' => if re_space c then (match_spaces s' ++ [s'])%list else []
  | EmptyString => []
  end.

(** The matches of one token, in the order a backtracking matcher tries
    them: the group matched, if the token is one, and the rest. *)
Definition match_token (t : token) (s : string)
  : list (option (ascii * string) * string) :=
  match t with
  | TDir c =>
      (λ mr, (Some (c, fst mr), snd mr))
        <$> omap (λ alt, match_seq alt s) (default [] (regex_of c))
  | TLit c =>
      match s with
      | String c' r => if Ascii.eqb (lower c) (lower c') then [(None, r)] else []
      | EmptyString => []
      end
  | TSpaces => (λ r, (None, r)) <$> match_spaces s
  end.

Fixpoint match_tokens (ts : list token) (s : string)
  : list (list (ascii * string) * string) :=
  match ts with
  | [] => [([], s)]
  | t :: ts' =>
      gr ← match_token t s;
      gsr ← match_tokens ts' gr.2;
      [((option_list gr.1 ++ gsr.1)%list, gsr.2)]
  end.

Definition directives (ts : list token) : list ascii :=
  omap (λ t, match t with TDir c => Some c | _ => None end) ts.

Fixpoint group (c : ascii) (gs : list (ascii * string)) : option string :=
  match gs with
  | [] => None
  | (c', m) :: gs' => if Ascii.eqb c c' then Some m else group c gs'
  end.

(** The value of a group, or the default of a directive absent from the
    format. *)
Definition field (c : ascii) (gs : list (ascii * string)) (dflt : Z) : outcome Z :=
  match group c gs with
  | Some m => int m
  | None => Ok dflt
  end.

(** [datetime.strptime(data, fmt)]: the format becomes a regular expression
    that has to match at the start of [data] and to consume it whole; the
    date found has to exist. *)
Definition strptime (data fmt : string) : outcome datetime :=
  ts ← tokens_of fmt;
  let ts := collapse ts in
  if bool_decide (NoDup (directives ts)) then
    match match_tokens ts data with
    | [] => Raise ValueError
    | (gs, rest) :: _ =>
        if bool_decide (rest = EmptyString) then
          m ← field "m" gs 1;
          d ← field "d" gs 1;
          y ← field "Y" gs 1900;
          h ← field "H" gs 0;
          mi ← field "M" gs 0;
          s ← field "S" gs 0;
          new_datetime y m d h mi s 0
        else Raise ValueError
    end
  else Raise ReError.

(** The 15 characters [%Y%m%d_%H%M%S] of a time. *)
Definition stamp15 (t : datetime) : string :=
  (pad4 (year t) ++ pad2 (month t) ++ pad2 (day t) ++ "_"
   ++ pad2 (hour t) ++ pad2 (minute t) ++ pad2 (second t))%string.

(** The 19 characters [%Y:%m:%d %H:%M:%S] of a time. *)
Definition exif_stamp (t : datetime) : string :=
  (pad4 (year t) ++ ":" ++ pad2 (month t) ++ ":" ++ pad2 (day t) ++ " "
   ++ pad2 (hour t) ++ ":" ++ pad2 (minute t) ++ ":" ++ pad2 (second t))%string.

(** A time without its microseconds, as [strptime] finds it. *)
Definition whole_second (t : datetime) : datetime :=
  mk_datetime (year t) (month t) (day t) (hour t) (minute t) (second t) 0.

(** [text] is how directive [c] reads the value [v]: the first way the
    group matches [text] takes all of it, [int] gives [v] back, and no
    alternative is longer than [text]. *)
Definition dir_ok (c : ascii) (text : string) (v : Z) : bool :=
  match match_token (TDir c) text with
  | (Some (c', m), r) :: _ => Ascii.eqb c' c && String.eqb m text && String.eqb r EmptyString
  | _ => false
  end
  && match int text with Ok n => n =? v | _ => false end
  && forallb (λ alt, (length alt <=? String.length text)%nat)
       (default [] (regex_of c)).

(** Checks of the two conversions on one day and on one date. *)
Definition ord_round_trip_ok (n : Z) : bool :=
  let '(y, m, d) := ord2ymd (n + 1) in ymd2ord y m d =? n + 1.

Definition date_round_trip_ok (y m d : Z) : bool :=
  negb ((1 <=? m) && (m <=? 12) && (1 <=? d) && (d <=? days_in_month y m))
  || match ord2ymd (ymd2ord y m d) with
     | (y', m', d') => (y' =? y) && (m' =? m) && (d' =? d)
     end.

(** Seconds since midnight. *)
Definition seconds_of_day (t : datetime) : Z :=
  hour t * 3600 + minute t * 60 + second t.

End Datetime.
Export Datetime.

(** ** The notebook *)

Module Notebook.

Definition EXIF_DATETIME_TAG : Z := 36867.

(** A JPEG file as [PIL.Image.open] sees it: the image data and
    [im.info.get("exif")]. *)
Record image : Set := mk_image {
  pixels : string;
  info_exif : option string
}.

(** An entry of [os.scandir]: its name, the file at its path, and the macOS
    tags [OSXMetaData(f).tags]. *)
Record entry : Set := mk_entry {
  name : string;
  file : image;
  tags : list string
}.

(** The folders [img/tmp] and [img/Final], by entry name, and the warnings
    logged. *)
Record state : Type := mk_state {
  tmp : gmap string image;
  final : gmap string image;
  log : list string
}.

(** *** First pass (lines 259 to 306 of the notebook file) *)

(** Lines 271 to 289, the dispatch on the shape of the name: the value of
    [new_name] where the branch sets it, the UTC time found, if the name
    carries one, and the warning of the last branch.  Where a branch leaves
    [new_name] alone, line 293 sets it before it is used. *)
Definition dispatch (photo_name : string)
  : outcome (option string * option datetime * option string) :=
  if bool_decide (slice 0 3 photo_name = "IMG") then
    Ok (Some photo_name, None, None)
  else if bool_decide (slice 0 3 photo_name = "PXL") then
    let utc_str := slice 4 19 photo_name in
    utc_time ← strptime utc_str "%Y%m%d_%H%M%S";
    Ok (None, Some utc_time, None)
  else if bool_decide (slice 0 2 photo_name = "16") then
    unix_ts ← int (slice 0 13 photo_name);
    utc_time ← utcfromtimestamp_ms unix_ts;
    Ok (None, Some utc_time, None)
  else
    Ok (None, None,
        Some (photo_name ++ " is not one of the known file naming schemes")%string).

(** Lines 292 to 297: the name built from the local time, or from the
    folder date [current_date] of line 264 when the two dates differ.  The
    f-string of line 297 is a [strftime] format like the other. *)
Definition local_name (current_date photo_name : string) (utc_time : datetime)
  : outcome string :=
  local_time ← add utc_time (timedelta_hours 8);
  new_name ← strftime local_time "IMG_%Y%m%d_%H%M%S.jpg";
  d ← strftime local_time "%Y%m%d";
  if bool_decide (d ≠ current_date) then
    strftime local_time ("IMG_" ++ current_date ++ "_120000_" ++ photo_name)%string
  else Ok new_name.

(** Lines 271 to 297: the value of [new_name] when the body of the loop
    reaches the copy, and the warning logged on the way.  A [datetime] is
    always true, so the test of line 291 is on [utc_time] being set. *)
Definition rename (current_date photo_name : string)
  : outcome (option string * option string) :=
  '(new_name, utc_time, warning) ← dispatch photo_name;
  match utc_time with
  | Some utc_time =>
      new_name ← local_name current_date photo_name utc_time;
      Ok (Some new_name, warning)
  | None => Ok (new_name, warning)
  end.

(** Lines 270 to 300, one turn of the loop over the photos of a folder.
    The copy of line 300 to [f'{TMP_FOLDER}/{new_name}'] is under no
    condition, and overwrites. *)
Definition first_pass_photo (current_date : string) (photo : entry) (st : state)
  : outcome state :=
  '(new_name, warning) ← rename current_date (name photo);
  Ok (mk_state (<[str_of_option new_name := file photo]> (tmp st))
               (final st)
               (log st ++ option_list warning)%list).

(** A loop that stops at the first exception, with the state reached. *)
Fixpoint for_each {A} (body : A → state → outcome state) (l : list A) (st : state)
  : state * outcome () :=
  match l with
  | [] => (st, Ok ())
  | x :: l' =>
      match body x st with
      | Ok st' => for_each body l' st'
      | Raise e => (st, Raise e)
      | Unsupported => (st, Unsupported)
      end
  end.

(** [OSXMetaData(f).tags] is true. *)
Definition tagged (f : entry) : bool := bool_decide (tags f ≠ []).

(** Line 306. *)
Definition copy_video (video : entry) (st : state) : outcome state :=
  Ok (mk_state (tmp st) (<[name video := file video]> (final st)) (log st)).

(** Lines 266 to 306, the body of the loop over the folders, for the entries
    [os.scandir(subfolder)] of one folder. *)
Definition first_pass_folder (current_date : string) (entries : list entry)
  (st : state) : state * outcome () :=
  let photos := filter (λ f, contains ".jpg" (name f) && tagged f) entries in
  match for_each (first_pass_photo current_date) photos st with
  | (st', Ok _) =>
      let videos := filter (λ f, contains "VID_" (name f) && tagged f) entries in
      for_each copy_video videos st'
  | r => r
  end.

(** *** Second pass (lines 315 to 340) *)

(** The EXIF dictionary of [piexif]: IFD name to IFD, an IFD from tag to
    value; the values met here are byte strings. *)
Abbreviation ifd := (gmap Z string).
Abbreviation exif_dict := (gmap string (gmap Z string)).

(** Which branch of the test on the tag was taken. *)
Inductive write_result : Set := Written | AlreadyPresent.

Definition datetime_tag (d : exif_dict) : option string :=
  d !! "Exif" ≫= (.!! EXIF_DATETIME_TAG).

(** Truth value of [x.get(tag)]. *)
Definition truthy (v : option string) : bool :=
  match v with
  | Some s => negb (bool_decide (s = EmptyString))
  | None => false
  end.

Section second_pass.

(** [piexif.load] and [piexif.dump] on byte strings, and the JPEG encoder of
    [im.save(..., quality=100, subsampling=0)], are taken as given. *)
Variable piexif_load : string → outcome exif_dict.
Variable piexif_dump : exif_dict → outcome string.
Variable jpeg_encode : string → string.

(** [im.info["exif"]] *)
Definition info_getitem_exif (im : image) : outcome string :=
  match info_exif im with
  | Some b => Ok b
  | None => Raise KeyError
  end.

(** [piexif.load(x)] where [x] may be [None], which cannot be sliced. *)
Definition load (x : option string) : outcome exif_dict :=
  match x with
  | Some b => piexif_load b
  | None => Raise TypeError
  end.

(** [im.save(path, "jpeg", exif=exif_bytes, ...)]: the file at [path] after
    the call. *)
Definition save (im : image) (exif_bytes : string) : image :=
  mk_image (jpeg_encode (pixels im)) (Some exif_bytes).

(** Lines 319 to 337, the body of the second loop up to the move: the
    branch taken at line 333 and the file left at [photo.path].  Line 320
    loads [im.info["exif"]] once before the [try] of line 322 loads
    [im.info.get("exif")]. *)
Definition second_pass_photo (photo_name : string) (im : image)
  : outcome (write_result * image) :=
  b ← info_getitem_exif im;
  _ ← piexif_load b;
  exif_dict ← try_except (load (info_exif im)) TypeError (Ok {["Exif" := ∅]});
  let local_str := slice 4 19 photo_name in
  local_time ← strptime local_str "%Y%m%d_%H%M%S";
  local_time_bytestr ← strftime local_time "%Y:%m:%d %H:%M:%S";
  match exif_dict !! "Exif" with
  | None => Raise AttributeError
  | Some exif =>
      if negb (truthy (exif !! EXIF_DATETIME_TAG)) then
        let exif_dict :=
          <["Exif" := <[EXIF_DATETIME_TAG := local_time_bytestr]> exif]> exif_dict in
        exif_bytes ← piexif_dump exif_dict;
        Ok (Written, save im exif_bytes)
      else Ok (AlreadyPresent, im)
  end.

(** Line 340, [shutil.move(photo.path, f'{FINAL_FOLDER}/')]: refused when
    the folder already has an entry of that name. *)
Definition move_to_final (photo_name : string) (im : image) (st : state)
  : outcome state :=
  match final st !! photo_name with
  | Some _ => Raise ShutilError
  | None =>
      Ok (mk_state (delete photo_name (tmp st)) (<[photo_name := im]> (final st))
            (log st))
  end.

(** Lines 317 to 340, one turn of the second loop. *)
Definition second_pass_entry (photo : string * image) (st : state) : outcome state :=
  '(_, im) ← second_pass_photo photo.1 photo.2;
  move_to_final photo.1 im (mk_state (<[photo.1 := im]> (tmp st)) (final st) (log st)).

(** Lines 315 to 340, over the entries of [img/tmp] in the order the map
    lists them. *)
Definition second_pass (st : state) : state * outcome () :=
  let photos := filter (λ f, contains ".jpg" f.1 = true) (map_to_list (tmp st)) in
  for_each second_pass_entry photos st.

(** The timestamp a reader finds in the tag, parsed as [get_exif_info]
    parses DateTimeOriginal (line 154). *)
Definition tag_timestamp (im : image) : outcome datetime :=
  d ← load (info_exif im);
  match datetime_tag d with
  | Some v => strptime v "%Y:%m:%d %H:%M:%S"
  | None => Raise TypeError
  end.

End second_pass.

(** What the second pass needs of [piexif]: the DateTimeOriginal tag of a
    dictionary that [dump] accepts is found again by [load]. *)
Definition tag_survives (piexif_load : string → outcome exif_dict)
  (piexif_dump : exif_dict → outcome string) : Prop :=
  ∀ d b, piexif_dump d = Ok b →
         ∃ d', piexif_load b = Ok d' ∧ datetime_tag d' = datetime_tag d.

(** A codec that keeps the DateTimeOriginal tag and drops the rest, as the
    notebook does when it tries [piexif.dump] on a dictionary with that tag
    alone; it stands for [piexif] where a property is run on an example. *)
Definition tag_only_dump (d : exif_dict) : outcome string :=
  Ok (match datetime_tag d with Some v => String "T" v | None => EmptyString end).

Definition tag_only_load (b : string) : outcome exif_dict :=
  match b with
  | EmptyString => Ok {["Exif" := ∅]}
  | String c v =>
      if Ascii.eqb c "T" then Ok {["Exif" := {[EXIF_DATETIME_TAG := v]}]}
      else Raise ValueError
  end.

End Notebook.
Export Notebook.

(** * Properties *)

(** ** The library model on examples *)

Example slice_clamps : slice 4 19 "PXL_2022" = "2022".
Proof. reflexivity. Qed.

Example contains_jpg :
  contains ".jpg" "IMG_20221121_230114.jpg" = true ∧ contains ".jpg" "None" = false.
Proof. split; reflexivity. Qed.

Example int_epoch : int (slice 0 13 "1669256881625.jpg") = Ok 1669256881625.
Proof. reflexivity. Qed.

Example int_underscore : int "1669_25688162" = Ok 166925688162.
Proof. reflexivity. Qed.

Example int_trailing_space : int "166925688162 " = Ok 166925688162.
Proof. reflexivity. Qed.

Example int_double_underscore : int "1__6" = Raise ValueError.
Proof. reflexivity. Qed.

Example ord2ymd_epoch : ord2ymd 719163 = (1970, 1, 1) ∧ ymd2ord 1970 1 1 = 719163.
Proof. split; reflexivity. Qed.

Example ord2ymd_bounds : ord2ymd 1 = (1, 1, 1) ∧ ord2ymd MAXORDINAL = (9999, 12, 31).
Proof. split; reflexivity. Qed.

Example add_over_leap_day :
  add (mk_datetime 2024 2 28 16 0 0 0) (timedelta_hours 8)
  = Ok (mk_datetime 2024 2 29 0 0 0 0)
  ∧ add (mk_datetime 2023 2 28 16 0 0 0) (timedelta_hours 8)
    = Ok (mk_datetime 2023 3 1 0 0 0 0).
Proof. split; reflexivity. Qed.

Example add_overflow :
  add (mk_datetime 9999 12 31 16 0 0 0) (timedelta_hours 8) = Raise OverflowError.
Proof. reflexivity. Qed.

Example strptime_short_fields :
  strptime "2022115_040253" "%Y%m%d_%H%M%S" = Ok (mk_datetime 2022 11 5 4 2 53 0)
  ∧ strptime "20221125_425" "%Y%m%d_%H%M%S" = Ok (mk_datetime 2022 11 25 4 2 5 0).
Proof. split; vm_compute; reflexivity. Qed.

Example strptime_refuses :
  strptime "20220230_040253" "%Y%m%d_%H%M%S" = Raise ValueError
  ∧ strptime "20221125_0402531" "%Y%m%d_%H%M%S" = Raise ValueError
  ∧ strptime "20221125_040260" "%Y%m%d_%H%M%S" = Raise ValueError
  ∧ strptime "00000101_000000" "%Y%m%d_%H%M%S" = Raise ValueError
  ∧ strptime "20222022" "%Y%Y" = Raise ReError.
Proof. repeat split; vm_compute; reflexivity. Qed.

Example strptime_exif_spaces :
  strptime "2022:11:21  22:01:14" "%Y:%m:%d %H:%M:%S"
  = Ok (mk_datetime 2022 11 21 22 1 14 0).
Proof. vm_compute. reflexivity. Qed.

Example rename_percent_in_name :
  rename "20221124" "PXL_20221125_040253498%d.jpg"
  = Ok (Some "IMG_20221124_120000_PXL_20221125_04025349825.jpg", None).
Proof. vm_compute. reflexivity. Qed.

(** ** Tactics *)

Ltac div_mod_lia := Z.div_mod_to_equations; lia.

Lemma bind_Ok {A B} (a : A) (f : A → outcome B) : Ok a ≫= f = f a.
Proof. reflexivity. Qed.

(** ** Bounded checks *)

Lemma forall_upto_spec n p :
  forall_upto n p = true → ∀ v, 0 ≤ v < Z.of_nat n → p v = true.
Proof.
  induction n as [|k IH]; intros Hall v Hv; [lia|].
  simpl in Hall. apply andb_true_iff in Hall as [Hk Hrest].
  destruct (decide (v = Z.of_nat k)) as [->|Hne]; [done|].
  apply IH; [done|lia].
Qed.

(** ** The calendar *)

Lemma month_day_valid leapyear n :
  0 ≤ n < 365 → month_day_ok leapyear n = true.
Proof.
  intros Hn. apply (forall_upto_spec 365); [|exact Hn].
  destruct leapyear; vm_compute; reflexivity.
Qed.

Lemma is_leap_parts a b c e :
  0 ≤ a → 0 ≤ b ≤ 3 → 0 ≤ c ≤ 24 → 0 ≤ e ≤ 3 →
  is_leap (a * 400 + 1 + b * 100 + c * 4 + e)
  = (e =? 3) && (negb (c =? 24) || (b =? 3)).
Proof.
  intros Ha Hb Hc He. unfold is_leap.
  set (y := a * 400 + 1 + b * 100 + c * 4 + e).
  assert (H4 : y mod 4 = (e + 1) mod 4).
  { unfold y. replace (a * 400 + 1 + b * 100 + c * 4 + e)
      with (e + 1 + (a * 100 + b * 25 + c) * 4) by lia.
    apply Z_mod_plus_full. }
  assert (H100 : y mod 100 = (c * 4 + e + 1) mod 100).
  { unfold y. replace (a * 400 + 1 + b * 100 + c * 4 + e)
      with (c * 4 + e + 1 + (a * 4 + b) * 100) by lia.
    apply Z_mod_plus_full. }
  assert (H400 : y mod 400 = (b * 100 + c * 4 + e + 1) mod 400).
  { unfold y. replace (a * 400 + 1 + b * 100 + c * 4 + e)
      with (b * 100 + c * 4 + e + 1 + a * 400) by lia.
    apply Z_mod_plus_full. }
  rewrite H4, H100, H400.
  destruct (Z.eqb_spec e 3) as [->|He3].
  - destruct (Z.eqb_spec c 24) as [->|Hc24].
    + destruct (Z.eqb_spec b 3) as [->|Hb3]; [reflexivity|].
      assert (Hb' : b = 0 ∨ b = 1 ∨ b = 2) by lia.
      destruct Hb' as [->|[->| ->]]; reflexivity.
    + rewrite (Z.mod_small (c * 4 + 3 + 1) 100) by lia.
      destruct (Z.eqb_spec (c * 4 + 3 + 1) 0); [lia|]. reflexivity.
  - rewrite (Z.mod_small (e + 1) 4) by lia.
    destruct (Z.eqb_spec (e + 1) 0); [lia|]. reflexivity.
Qed.

Lemma ord2ymd_valid n :
  0 < n ≤ MAXORDINAL →
  valid_date (ord2ymd n).1.1 (ord2ymd n).1.2 (ord2ymd n).2 = true.
Proof.
  unfold MAXORDINAL, ord2ymd, DI400Y, DI100Y, DI4Y. intros Hn.
  set (n0 := n - 1).
  set (n400 := n0 / 146097). set (r400 := n0 mod 146097).
  set (n100 := r400 / 36524). set (r100 := r400 mod 36524).
  set (n4 := r100 / 1461). set (r4 := r100 mod 1461).
  set (n1 := r4 / 365). set (r1 := r4 mod 365).
  assert (H400 : 0 ≤ n400 ≤ 24) by (unfold n400, n0; div_mod_lia).
  assert (Hr400 : 0 ≤ r400 < 146097) by (unfold r400; div_mod_lia).
  assert (H100 : 0 ≤ n100 ≤ 4) by (unfold n100; div_mod_lia).
  assert (Hr100 : 0 ≤ r100 < 36524) by (unfold r100; div_mod_lia).
  assert (H4 : 0 ≤ n4 ≤ 24) by (unfold n4; div_mod_lia).
  assert (Hr4 : 0 ≤ r4 < 1461) by (unfold r4; div_mod_lia).
  assert (H1 : 0 ≤ n1 ≤ 4) by (unfold n1; div_mod_lia).
  assert (Hr1 : 0 ≤ r1 < 365) by (unfold r1; div_mod_lia).
  assert (Hy : n400 * 400 + 1 + n100 * 100 + n4 * 4 + n1 ≤ 9999
               ∨ (n400 * 400 + 1 + n100 * 100 + n4 * 4 + n1 = 10000
                  ∧ (n1 = 4 ∨ n100 = 4))).
  { unfold n1, r4, n4, r100, n100, r400, n400, n0. div_mod_lia. }
  destruct ((n1 =? 4) || (n100 =? 4)) eqn:Hlast.
  - simpl. unfold valid_date, MINYEAR, MAXYEAR, days_in_month. simpl.
    apply orb_true_iff in Hlast.
    repeat (apply andb_true_iff; split); try reflexivity; lia.
  - apply orb_false_iff in Hlast as [Hn1 Hn100].
    apply Z.eqb_neq in Hn1, Hn100.
    pose proof (month_day_valid ((n1 =? 3) && (negb (n4 =? 24) || (n100 =? 3))) r1 Hr1)
      as Hmd.
    unfold month_day_ok in Hmd.
    destruct (month_day _ r1) as [m d]. simpl.
    rewrite !andb_true_iff in Hmd. destruct Hmd as [[[Hm1 Hm2] Hd1] Hd2].
    unfold valid_date, MINYEAR, MAXYEAR, days_in_month.
    rewrite is_leap_parts by lia.
    repeat (apply andb_true_iff; split); try assumption; lia.
Qed.

Lemma add_valid t d t' : add t d = Ok t' → valid t' = true.
Proof.
  unfold add. intros Hadd.
  destruct ((0 <? _) && (_ <=? MAXORDINAL)) eqn:Hrange; [|discriminate].
  apply andb_true_iff in Hrange as [Hlo Hhi].
  apply Z.ltb_lt in Hlo. apply Z.leb_le in Hhi.
  pose proof (ord2ymd_valid _ (conj Hlo Hhi)) as Hdate.
  destruct (ord2ymd _) as [[y m] dd]. simpl in Hdate.
  injection Hadd as <-. unfold valid, valid_time. simpl. rewrite Hdate. simpl.
  repeat (apply andb_true_iff; split);
    first [apply Z.leb_le | apply Z.ltb_lt]; div_mod_lia.
Qed.

Lemma utcfromtimestamp_ms_valid ms t :
  utcfromtimestamp_ms ms = Ok t → valid t = true.
Proof.
  unfold utcfromtimestamp_ms. intros Hutc.
  destruct ((0 <? _) && (_ <=? MAXORDINAL)) eqn:Hrange; [|discriminate].
  apply andb_true_iff in Hrange as [Hlo Hhi].
  apply Z.ltb_lt in Hlo. apply Z.leb_le in Hhi.
  pose proof (ord2ymd_valid _ (conj Hlo Hhi)) as Hdate.
  destruct (ord2ymd _) as [[y m] dd]. simpl in Hdate.
  injection Hutc as <-. unfold valid, valid_time. simpl. rewrite Hdate. simpl.
  repeat (apply andb_true_iff; split);
    first [apply Z.leb_le | apply Z.ltb_lt]; div_mod_lia.
Qed.

(** ** Matching the text of a directive *)

Lemma match_seq_app cs m rest :
  (length cs ≤ String.length m)%nat →
  match_seq cs (m ++ rest)
  = (λ ar, (ar.1, (ar.2 ++ rest)%string)) <$> match_seq cs m.
Proof.
  revert m. induction cs as [|k cs IH]; intros m Hlen; [reflexivity|].
  destruct m as [|c m]; simpl in Hlen; [lia|]. simpl.
  destruct (k c); [|reflexivity].
  rewrite IH by lia. destruct (match_seq cs m) as [[a r]|]; reflexivity.
Qed.

Lemma match_alts_app alts m rest :
  forallb (λ alt, (length alt <=? String.length m)%nat) alts = true →
  omap (λ alt, match_seq alt (m ++ rest)) alts
  = (λ ar, (ar.1, (ar.2 ++ rest)%string)) <$> omap (λ alt, match_seq alt m) alts.
Proof.
  induction alts as [|alt alts IH]; intros Hlen; [reflexivity|].
  simpl in Hlen. apply andb_true_iff in Hlen as [Halt Halts].
  apply Nat.leb_le in Halt. specialize (IH Halts). unfold omap in IH |- *.
  simpl. rewrite match_seq_app by exact Halt. rewrite IH.
  destruct (match_seq alt m) as [[a r]|]; reflexivity.
Qed.

Lemma dir_ok_spec c text v rest :
  dir_ok c text v = true →
  int text = Ok v
  ∧ ∃ tl, match_token (TDir c) (text ++ rest) = (Some (c, text), rest) :: tl.
Proof.
  unfold dir_ok. rewrite !andb_true_iff. intros [[Hmatch Hint] Hlen]. split.
  - destruct (int text) as [n| |]; try discriminate.
    apply Z.eqb_eq in Hint. by subst.
  - unfold match_token in *. rewrite match_alts_app by exact Hlen.
    destruct (omap _ _) as [|[a r] l]; [discriminate|]. simpl in *.
    rewrite !andb_true_iff in Hmatch. destruct Hmatch as [[_ Ha] Hr].
    apply String.eqb_eq in Ha, Hr. subst. eexists. reflexivity.
Qed.

Lemma dir_ok_range c (pad : Z → string) lo hi :
  0 ≤ lo →
  forall_upto (Z.to_nat hi) (λ v, (v <? lo) || dir_ok c (pad v) v) = true →
  ∀ v, lo ≤ v < hi → dir_ok c (pad v) v = true.
Proof.
  intros Hlo Hall v Hv.
  pose proof (forall_upto_spec _ _ Hall v ltac:(lia)) as H. simpl in H.
  apply orb_true_iff in H as [H|H]; [|exact H].
  apply Z.ltb_lt in H. lia.
Qed.

Lemma dir_ok_Y v : 0 ≤ v ≤ 9999 → dir_ok "Y" (pad4 v) v = true.
Proof. intros. apply (dir_ok_range "Y" pad4 0 10000); [lia|by vm_compute|lia]. Qed.

Lemma dir_ok_m v : 1 ≤ v ≤ 12 → dir_ok "m" (pad2 v) v = true.
Proof. intros. apply (dir_ok_range "m" pad2 1 13); [lia|by vm_compute|lia]. Qed.

Lemma dir_ok_d v : 1 ≤ v ≤ 31 → dir_ok "d" (pad2 v) v = true.
Proof. intros. apply (dir_ok_range "d" pad2 1 32); [lia|by vm_compute|lia]. Qed.

Lemma dir_ok_H v : 0 ≤ v < 24 → dir_ok "H" (pad2 v) v = true.
Proof. intros. apply (dir_ok_range "H" pad2 0 24); [lia|by vm_compute|lia]. Qed.

Lemma dir_ok_M v : 0 ≤ v < 60 → dir_ok "M" (pad2 v) v = true.
Proof. intros. apply (dir_ok_range "M" pad2 0 60); [lia|by vm_compute|lia]. Qed.

Lemma dir_ok_S v : 0 ≤ v < 60 → dir_ok "S" (pad2 v) v = true.
Proof. intros. apply (dir_ok_range "S" pad2 0 60); [lia|by vm_compute|lia]. Qed.

(** ** [strptime] reads what [strftime] writes *)

Lemma match_tokens_cons t ts s g r tl gs r' tl' :
  match_token t s = (g, r) :: tl →
  match_tokens ts r = (gs, r') :: tl' →
  ∃ tl'', match_tokens (t :: ts) s = ((option_list g ++ gs)%list, r') :: tl''.
Proof.
  intros Ht Hts. simpl. rewrite Ht. simpl. rewrite Hts. simpl.
  eexists. reflexivity.
Qed.

Lemma strptime_match data fmt ts gs tl :
  tokens_of fmt = Ok ts →
  bool_decide (NoDup (directives (collapse ts))) = true →
  match_tokens (collapse ts) data = (gs, EmptyString) :: tl →
  strptime data fmt
  = (m ← field "m" gs 1; d ← field "d" gs 1; y ← field "Y" gs 1900;
     h ← field "H" gs 0; mi ← field "M" gs 0; s ← field "S" gs 0;
     new_datetime y m d h mi s 0).
Proof.
  intros Hts Hnodup Hmatch. unfold strptime. rewrite Hts. simpl.
  rewrite Hnodup, Hmatch. reflexivity.
Qed.

Lemma days_in_month_le y m : 1 ≤ m ≤ 12 → days_in_month y m ≤ 31.
Proof.
  intros Hm. unfold days_in_month.
  destruct ((m =? 2) && is_leap y); [lia|].
  assert (Hcases : m = 1 ∨ m = 2 ∨ m = 3 ∨ m = 4 ∨ m = 5 ∨ m = 6 ∨ m = 7
                   ∨ m = 8 ∨ m = 9 ∨ m = 10 ∨ m = 11 ∨ m = 12) by lia.
  repeat (destruct Hcases as [->|Hcases]; [vm_compute; discriminate|]).
  subst. vm_compute. discriminate.
Qed.

(** The ranges of the fields of a valid time. *)
Lemma valid_fields t :
  valid t = true →
  (1 ≤ year t ≤ 9999 ∧ 1 ≤ month t ≤ 12 ∧ 1 ≤ day t ≤ 31)
  ∧ (0 ≤ hour t < 24 ∧ 0 ≤ minute t < 60 ∧ 0 ≤ second t < 60).
Proof.
  unfold valid, valid_date, valid_time, MINYEAR, MAXYEAR.
  rewrite !andb_true_iff, !Z.leb_le, !Z.ltb_lt. intros Hv.
  pose proof (days_in_month_le (year t) (month t)). lia.
Qed.

Lemma valid_whole_second t : valid t = true → valid (whole_second t) = true.
Proof.
  unfold valid, valid_time. simpl. rewrite !andb_true_iff. intros Hv.
  repeat split; try reflexivity; apply Hv.
Qed.

Ltac read_dir Hok rest Hint Hmatch :=
  let tl := fresh "tl" in
  destruct (dir_ok_spec _ _ _ rest Hok) as [Hint [tl Hmatch]].

Ltac link Htoken Hrest H :=
  let tl := fresh "tl" in
  destruct (match_tokens_cons _ _ _ _ _ _ _ _ _ Htoken Hrest) as [tl H].

Lemma strptime_stamp15 t :
  valid t = true →
  strptime (stamp15 t) "%Y%m%d_%H%M%S" = Ok (whole_second t).
Proof.
  intros Hv. pose proof (valid_whole_second t Hv) as Hw.
  destruct (valid_fields t Hv) as [(Hy & Hm & Hd) (Hh & Hmi & Hs)].
  destruct t as [y m d h mi s us]. simpl in *.
  read_dir (dir_ok_S s Hs) EmptyString HiS HmS.
  link HmS (eq_refl (match_tokens [] EmptyString)) H1.
  read_dir (dir_ok_M mi Hmi) (pad2 s ++ EmptyString)%string HiM HmM.
  link HmM H1 H2.
  read_dir (dir_ok_H h Hh) (pad2 mi ++ pad2 s ++ EmptyString)%string HiH HmH.
  link HmH H2 H3.
  link (eq_refl (match_token (TLit "_") ("_" ++ pad2 h ++ pad2 mi ++ pad2 s ++ EmptyString))) H3 H4.
  read_dir (dir_ok_d d Hd)
    ("_" ++ pad2 h ++ pad2 mi ++ pad2 s ++ EmptyString)%string Hid Hmd.
  link Hmd H4 H5.
  read_dir (dir_ok_m m ltac:(lia))
    (pad2 d ++ "_" ++ pad2 h ++ pad2 mi ++ pad2 s ++ EmptyString)%string Him Hmm.
  link Hmm H5 H6.
  read_dir (dir_ok_Y y ltac:(lia))
    (pad2 m ++ pad2 d ++ "_" ++ pad2 h ++ pad2 mi ++ pad2 s ++ EmptyString)%string HiY HmY.
  link HmY H6 H7.
  erewrite strptime_match; [|reflexivity|by vm_compute|exact H7].
  unfold field. simpl group. cbv beta iota.
  rewrite Him, bind_Ok, Hid, bind_Ok, HiY, bind_Ok, HiH, bind_Ok, HiM, bind_Ok,
    HiS, bind_Ok.
  unfold new_datetime. unfold whole_second in Hw |- *. simpl in Hw |- *.
  rewrite Hw. reflexivity.
Qed.

Lemma re_space_digit_char d : 0 ≤ d ≤ 9 → re_space (digit_char d) = false.
Proof.
  intros Hd.
  pose proof (forall_upto_spec 10 (λ d, negb (re_space (digit_char d)))
                ltac:(by vm_compute) d ltac:(lia)) as H.
  by apply negb_true_iff in H.
Qed.

Lemma match_spaces_one d rest :
  0 ≤ d ≤ 9 →
  match_token TSpaces (String " " (String (digit_char d) rest))
  = [(None, String (digit_char d) rest)].
Proof.
  intros Hd. unfold match_token. simpl.
  rewrite re_space_digit_char by exact Hd. reflexivity.
Qed.

Lemma strptime_exif_stamp t :
  valid t = true →
  strptime (exif_stamp t) "%Y:%m:%d %H:%M:%S" = Ok (whole_second t).
Proof.
  intros Hv. pose proof (valid_whole_second t Hv) as Hw.
  destruct (valid_fields t Hv) as [(Hy & Hm & Hd) (Hh & Hmi & Hs)].
  destruct t as [y m d h mi s us]. simpl in *.
  read_dir (dir_ok_S s Hs) EmptyString HiS HmS.
  link HmS (eq_refl (match_tokens [] EmptyString)) H1.
  link (eq_refl (match_token (TLit ":") (":" ++ pad2 s ++ EmptyString))) H1 H2.
  read_dir (dir_ok_M mi Hmi) (":" ++ pad2 s ++ EmptyString)%string HiM HmM.
  link HmM H2 H3.
  link (eq_refl (match_token (TLit ":") (":" ++ pad2 mi ++ ":" ++ pad2 s ++ EmptyString))) H3 H4.
  read_dir (dir_ok_H h Hh) (":" ++ pad2 mi ++ ":" ++ pad2 s ++ EmptyString)%string HiH HmH.
  link HmH H4 H5.
  pose proof (match_spaces_one (h / 10 mod 10)
                (String (digit_char (h mod 10))
                   (":" ++ pad2 mi ++ ":" ++ pad2 s ++ EmptyString))
                ltac:(div_mod_lia)) as Hsp.
  link Hsp H5 H6.
  read_dir (dir_ok_d d Hd)
    (" " ++ pad2 h ++ ":" ++ pad2 mi ++ ":" ++ pad2 s ++ EmptyString)%string Hid Hmd.
  link Hmd H6 H7.
  link (eq_refl (match_token (TLit ":")
                   (":" ++ pad2 d ++ " " ++ pad2 h ++ ":" ++ pad2 mi ++ ":"
                    ++ pad2 s ++ EmptyString))) H7 H8.
  read_dir (dir_ok_m m ltac:(lia))
    (":" ++ pad2 d ++ " " ++ pad2 h ++ ":" ++ pad2 mi ++ ":" ++ pad2 s ++ EmptyString)%string
    Him Hmm.
  link Hmm H8 H9.
  link (eq_refl (match_token (TLit ":")
                   (":" ++ pad2 m ++ ":" ++ pad2 d ++ " " ++ pad2 h ++ ":"
                    ++ pad2 mi ++ ":" ++ pad2 s ++ EmptyString))) H9 H10.
  read_dir (dir_ok_Y y ltac:(lia))
    (":" ++ pad2 m ++ ":" ++ pad2 d ++ " " ++ pad2 h ++ ":" ++ pad2 mi ++ ":"
     ++ pad2 s ++ EmptyString)%string HiY HmY.
  link HmY H10 H11.
  erewrite strptime_match; [|reflexivity|by vm_compute|exact H11].
  unfold field. simpl group. cbv beta iota.
  rewrite Him, bind_Ok, Hid, bind_Ok, HiY, bind_Ok, HiH, bind_Ok, HiM, bind_Ok,
    HiS, bind_Ok.
  unfold new_datetime. unfold whole_second in Hw |- *. simpl in Hw |- *.
  rewrite Hw. reflexivity.
Qed.

(** What [strptime] returns went through the constructor, with no
    microseconds. *)
Lemma strptime_valid data fmt t :
  strptime data fmt = Ok t → valid t = true ∧ whole_second t = t.
Proof.
  unfold strptime. intros H.
  destruct (tokens_of fmt) as [ts| |]; try discriminate. simpl in H.
  destruct (bool_decide _); [|discriminate].
  destruct (match_tokens _ _) as [|[gs rest] ?]; [discriminate|].
  destruct (bool_decide _); [|discriminate].
  repeat match type of H with
         | (field ?c ?gs ?v ≫= _) = _ =>
             destruct (field c gs v); try discriminate; rewrite bind_Ok in H
         end.
  unfold new_datetime in H. destruct (valid _) eqn:Hv; [|discriminate].
  injection H as <-. split; [exact Hv|reflexivity].
Qed.

Lemma strftime_stamp15 t : strftime t "%Y%m%d_%H%M%S" = Ok (stamp15 t).
Proof. reflexivity. Qed.

Lemma strftime_exif_stamp t : strftime t "%Y:%m:%d %H:%M:%S" = Ok (exif_stamp t).
Proof. reflexivity. Qed.

Lemma strftime_img t :
  strftime t "IMG_%Y%m%d_%H%M%S.jpg" = Ok ("IMG_" ++ stamp15 t ++ ".jpg")%string.
Proof. reflexivity. Qed.

Lemma slice_img t : slice 4 19 ("IMG_" ++ stamp15 t ++ ".jpg") = stamp15 t.
Proof. reflexivity. Qed.

(** ** The range of the epoch branch *)

Lemma int_digits_bound s acc b n :
  0 ≤ acc →
  int_digits acc b s = Some n →
  acc ≤ n < (acc + 1) * 10 ^ Z.of_nat (String.length s).
Proof.
  revert acc b. induction s as [|c s IH]; intros acc b Hacc H.
  - simpl in *. destruct b; [|discriminate]. injection H as <-. lia.
  - cbn [String.length]. rewrite Nat2Z.inj_succ, Z.pow_succ_r by lia.
    assert (Hpow : 0 < 10 ^ Z.of_nat (String.length s))
      by (apply Z.pow_pos_nonneg; lia).
    cbn [int_digits] in H. destruct (is_digit c) eqn:Hc.
    + unfold is_digit in Hc. apply andb_true_iff in Hc as [Hlo Hhi].
      apply Z.leb_le in Hlo, Hhi.
      apply IH in H; unfold digit_val in *; [nia|lia].
    + destruct (b && Ascii.eqb c "_").
      * apply IH in H; [nia|lia].
      * destruct (b && all_space (String c s)); [|discriminate].
        injection H as <-. nia.
Qed.

Lemma substring_length_le m s : (String.length (substring 0 m s) ≤ m)%nat.
Proof.
  revert s. induction m as [|m IH]; intros [|c s]; simpl; try lia.
  specialize (IH s). lia.
Qed.

(** The milliseconds that the third branch hands to [utcfromtimestamp] stay
    where the quotient by 1000 is exact to the microsecond in a double. *)
Lemma epoch_ms_range photo_name ms :
  slice 0 2 photo_name = "16" →
  int (slice 0 13 photo_name) = Ok ms →
  0 ≤ ms < 2 ^ 31 * 1000.
Proof.
  intros H16 Hint.
  destruct photo_name as [|c1 [|c2 rest]]; try discriminate.
  injection H16 as -> ->.
  change (slice 0 13 (String "1" (String "6" rest)))
    with (String "1" (String "6" (substring 0 11 rest))) in Hint.
  unfold int in Hint.
  change (lstrip (String "1" (String "6" (substring 0 11 rest))))
    with (String "1" (String "6" (substring 0 11 rest))) in Hint.
  cbv beta iota zeta in Hint.
  change (int_digits 0 false (String "1" (String "6" (substring 0 11 rest))))
    with (int_digits 16 true (substring 0 11 rest)) in Hint.
  destruct (int_digits 16 true (substring 0 11 rest)) as [n|] eqn:Hn;
    [|discriminate].
  injection Hint as <-.
  apply int_digits_bound in Hn; [|lia].
  pose proof (substring_length_le 11 rest) as Hlen.
  assert (Hpow : 10 ^ Z.of_nat (String.length (substring 0 11 rest)) ≤ 10 ^ 11)
    by (apply Z.pow_le_mono_r; lia).
  change (2 ^ 31 * 1000) with 2147483648000.
  change (10 ^ 11) with 100000000000 in Hpow. lia.
Qed.

(** ** First pass *)

Lemma first_pass_photo_renamed date photo st new_name warning :
  rename date (name photo) = Ok (new_name, warning) →
  first_pass_photo date photo st
  = Ok (mk_state (<[str_of_option new_name := file photo]> (tmp st)) (final st)
          (log st ++ option_list warning)%list).
Proof. intros H. unfold first_pass_photo. rewrite H. reflexivity. Qed.

Lemma rename_raise date photo_name e :
  dispatch photo_name = Raise e → rename date photo_name = Raise e.
Proof. intros H. unfold rename. rewrite H. reflexivity. Qed.

(** A name that starts with [IMG] is kept, whatever the folder date. *)
Lemma img_prefix_kept date photo_name :
  slice 0 3 photo_name = "IMG" →
  rename date photo_name = Ok (Some photo_name, None).
Proof.
  intros H. unfold rename, dispatch.
  rewrite bool_decide_eq_true_2 by exact H. reflexivity.
Qed.

(** A name of none of the three shapes is logged, gets [None] for new name,
    and the copy that follows stores the file under the text [None]. *)
Lemma unrecognized_staged_as_None date photo st :
  slice 0 3 (name photo) ≠ "IMG" →
  slice 0 3 (name photo) ≠ "PXL" →
  slice 0 2 (name photo) ≠ "16" →
  rename date (name photo)
  = Ok (None, Some (name photo ++ " is not one of the known file naming schemes")%string)
  ∧ ∃ st', first_pass_photo date photo st = Ok st'
           ∧ tmp st' !! "None" = Some (file photo).
Proof.
  intros Himg Hpxl H16.
  assert (Hr : rename date (name photo)
               = Ok (None, Some (name photo ++ " is not one of the known file naming schemes")%string)).
  { unfold rename, dispatch.
    rewrite !bool_decide_eq_false_2 by assumption. reflexivity. }
  split; [exact Hr|].
  eexists. split; [apply first_pass_photo_renamed, Hr|].
  simpl. apply lookup_insert_eq.
Qed.

(** C1, on the code: the unknown-shape name [DSC_0001.jpg] is warned about
    and gets no new name, but the file is still copied into the staging
    folder, under the name [None]; the specification has it left out of
    staging. *)
Theorem unknown_shape_is_staged date f tg st :
  rename date "DSC_0001.jpg"
  = Ok (None, Some "DSC_0001.jpg is not one of the known file naming schemes")
  ∧ first_pass_photo date (mk_entry "DSC_0001.jpg" f tg) st
    = Ok (mk_state (<["None" := f]> (tmp st)) (final st)
            (log st ++ ["DSC_0001.jpg is not one of the known file naming schemes"])%list)
  ∧ <["None" := f]> (tmp st) !! "None" = Some f.
Proof.
  split; [reflexivity|]. split; [reflexivity|]. apply lookup_insert_eq.
Qed.

(** C3 as the specification words it: the name [1669256881625.jpg] would
    stand for 23:28:01 UTC on 2022-11-23 and 07:28:01 local time on
    2022-11-24.  The code finds other times. *)
Lemma epoch_example_times_as_stated_fail :
  ¬ ∃ utc local_time,
      dispatch "1669256881625.jpg" = Ok (None, Some utc, None)
      ∧ whole_second utc = mk_datetime 2022 11 23 23 28 1 0
      ∧ add utc (timedelta_hours 8) = Ok local_time
      ∧ whole_second local_time = mk_datetime 2022 11 24 7 28 1 0
      ∧ rename "20221122" "1669256881625.jpg"
        = Ok (Some "IMG_20221122_120000_1669256881625.jpg", None).
Proof.
  intros (utc & local_time & Hd & Hutc & _).
  vm_compute in Hd. injection Hd as <-. discriminate Hutc.
Qed.

(** C3, amended: the 13 leading digits of [1669256881625.jpg] are
    milliseconds since the epoch; divided by 1000 they are 02:28:01 UTC on
    2022-11-24, that is 10:28:01 local time (UTC+8) the same day; the folder
    date [20221122] differs, so the new name is
    [IMG_20221122_120000_1669256881625.jpg]. *)
Theorem epoch_example_fallback :
  int (slice 0 13 "1669256881625.jpg") = Ok 1669256881625
  ∧ dispatch "1669256881625.jpg"
    = Ok (None, Some (mk_datetime 2022 11 24 2 28 1 625000), None)
  ∧ add (mk_datetime 2022 11 24 2 28 1 625000) (timedelta_hours 8)
    = Ok (mk_datetime 2022 11 24 10 28 1 625000)
  ∧ strftime (mk_datetime 2022 11 24 10 28 1 625000) "%Y%m%d" = Ok "20221124"
  ∧ rename "20221122" "1669256881625.jpg"
    = Ok (Some "IMG_20221122_120000_1669256881625.jpg", None).
Proof. repeat split; vm_compute; reflexivity. Qed.

(** C4: [PXL_20221125_040253498.jpg] in a folder dated [20221124] is 12:02:53
    local time on 2022-11-25, a date that is not the folder's; the time found
    is dropped and the new name is
    [IMG_20221124_120000_PXL_20221125_040253498.jpg], under which the file is
    staged. *)
Theorem device_utc_example_fallback f tg st :
  local_name "20221125" "PXL_20221125_040253498.jpg"
    (mk_datetime 2022 11 25 4 2 53 0)
  = Ok "IMG_20221125_120253.jpg"
  ∧ rename "20221124" "PXL_20221125_040253498.jpg"
    = Ok (Some "IMG_20221124_120000_PXL_20221125_040253498.jpg", None)
  ∧ first_pass_photo "20221124" (mk_entry "PXL_20221125_040253498.jpg" f tg) st
    = Ok (mk_state
            (<["IMG_20221124_120000_PXL_20221125_040253498.jpg" := f]> (tmp st))
            (final st) (log st)).
Proof.
  split; [by vm_compute|]. split; [by vm_compute|].
  erewrite first_pass_photo_renamed by (by vm_compute).
  simpl. by rewrite app_nil_r.
Qed.

(** C5: a [PXL] name with [20221125_040253] at positions 4 to 18, in a folder
    dated [20221125], is read as UTC, moved 8 hours on to 12:02:53 the same
    day, and renamed [IMG_20221125_120253.jpg], whatever follows position
    18. *)
Theorem device_utc_example_match photo_name :
  slice 0 3 photo_name = "PXL" →
  slice 4 19 photo_name = "20221125_040253" →
  dispatch photo_name = Ok (None, Some (mk_datetime 2022 11 25 4 2 53 0), None)
  ∧ add (mk_datetime 2022 11 25 4 2 53 0) (timedelta_hours 8)
    = Ok (mk_datetime 2022 11 25 12 2 53 0)
  ∧ rename "20221125" photo_name = Ok (Some "IMG_20221125_120253.jpg", None).
Proof.
  intros Hpxl Hstamp.
  assert (Hd : dispatch photo_name
               = Ok (None, Some (mk_datetime 2022 11 25 4 2 53 0), None)).
  { unfold dispatch. rewrite Hpxl, Hstamp. by vm_compute. }
  split; [exact Hd|]. split; [by vm_compute|].
  unfold rename. rewrite Hd, bind_Ok. cbv beta iota.
  unfold local_name.
  replace (add (mk_datetime 2022 11 25 4 2 53 0) (timedelta_hours 8))
    with (Ok (mk_datetime 2022 11 25 12 2 53 0)) by (by vm_compute).
  reflexivity.
Qed.

Lemma device_utc_example_match_witness :
  slice 0 3 "PXL_20221125_040253498.jpg" = "PXL"
  ∧ slice 4 19 "PXL_20221125_040253498.jpg" = "20221125_040253"
  ∧ rename "20221125" "PXL_20221125_040253498.jpg"
    = Ok (Some "IMG_20221125_120253.jpg", None).
Proof.
  split; [reflexivity|]. split; [reflexivity|].
  apply (device_utc_example_match "PXL_20221125_040253498.jpg");
    reflexivity.
Defined.

(** C6: when the local time found for a name falls on the folder date, the
    new name is [IMG_] followed by its 15 characters [%Y%m%d_%H%M%S] and
    [.jpg]; the second pass reads positions 4 to 18 of that name back to the
    same time, to the second, and writing that time out again gives the same
    15 characters. *)
Theorem canonical_name_round_trip date photo_name new_name0 utc warning local_time :
  dispatch photo_name = Ok (new_name0, Some utc, warning) →
  add utc (timedelta_hours 8) = Ok local_time →
  strftime local_time "%Y%m%d" = Ok date →
  ∃ new_name,
    rename date photo_name = Ok (Some new_name, warning)
    ∧ strftime local_time "IMG_%Y%m%d_%H%M%S.jpg" = Ok new_name
    ∧ strptime (slice 4 19 new_name) "%Y%m%d_%H%M%S" = Ok (whole_second local_time)
    ∧ strftime (whole_second local_time) "%Y%m%d_%H%M%S"
      = Ok (slice 4 19 new_name).
Proof.
  intros Hd Hadd Hdate.
  exists ("IMG_" ++ stamp15 local_time ++ ".jpg")%string.
  split; [|split; [apply strftime_img|split]].
  - unfold rename. rewrite Hd, bind_Ok. cbv beta iota.
    unfold local_name. rewrite Hadd, bind_Ok, strftime_img, bind_Ok, Hdate, bind_Ok.
    rewrite bool_decide_eq_false_2 by (intros Hne; by apply Hne).
    reflexivity.
  - rewrite slice_img. apply strptime_stamp15. eapply add_valid, Hadd.
  - rewrite slice_img. reflexivity.
Qed.

Lemma canonical_name_round_trip_witness :
  dispatch "PXL_20221125_040253498.jpg"
  = Ok (None, Some (mk_datetime 2022 11 25 4 2 53 0), None)
  ∧ add (mk_datetime 2022 11 25 4 2 53 0) (timedelta_hours 8)
    = Ok (mk_datetime 2022 11 25 12 2 53 0)
  ∧ strftime (mk_datetime 2022 11 25 12 2 53 0) "%Y%m%d" = Ok "20221125"
  ∧ ∃ new_name,
    rename "20221125" "PXL_20221125_040253498.jpg" = Ok (Some new_name, None)
    ∧ strftime (mk_datetime 2022 11 25 12 2 53 0) "IMG_%Y%m%d_%H%M%S.jpg"
      = Ok new_name
    ∧ strptime (slice 4 19 new_name) "%Y%m%d_%H%M%S"
      = Ok (whole_second (mk_datetime 2022 11 25 12 2 53 0))
    ∧ strftime (whole_second (mk_datetime 2022 11 25 12 2 53 0)) "%Y%m%d_%H%M%S"
      = Ok (slice 4 19 new_name).
Proof.
  split; [vm_compute; reflexivity|]. split; [reflexivity|].
  split; [reflexivity|].
  apply (canonical_name_round_trip "20221125" "PXL_20221125_040253498.jpg"
           None (mk_datetime 2022 11 25 4 2 53 0) None
           (mk_datetime 2022 11 25 12 2 53 0)); vm_compute; reflexivity.
Defined.

(** C7: a name [IMG_YYYYMMDD_HHMMSS.jpg] that spells a date and time is its
    own new name, whatever the folder date, with no warning; and positions
    4 to 18 of it are read back in the second pass as that date and time. *)
Theorem camera_native_unchanged t date photo_name :
  valid t = true →
  strftime t "IMG_%Y%m%d_%H%M%S.jpg" = Ok photo_name →
  dispatch photo_name = Ok (Some photo_name, None, None)
  ∧ rename date photo_name = Ok (Some photo_name, None)
  ∧ strptime (slice 4 19 photo_name) "%Y%m%d_%H%M%S" = Ok (whole_second t).
Proof.
  intros Hv Hname. rewrite strftime_img in Hname. injection Hname as <-.
  assert (Hd : dispatch ("IMG_" ++ stamp15 t ++ ".jpg")
               = Ok (Some ("IMG_" ++ stamp15 t ++ ".jpg")%string, None, None))
    by reflexivity.
  split; [exact Hd|]. split.
  - unfold rename. rewrite Hd. reflexivity.
  - rewrite slice_img. by apply strptime_stamp15.
Qed.

Lemma camera_native_unchanged_witness :
  valid (mk_datetime 2022 11 21 23 1 14 0) = true
  ∧ strftime (mk_datetime 2022 11 21 23 1 14 0) "IMG_%Y%m%d_%H%M%S.jpg"
    = Ok "IMG_20221121_230114.jpg"
  ∧ dispatch "IMG_20221121_230114.jpg" = Ok (Some "IMG_20221121_230114.jpg", None, None)
  ∧ rename "20221121" "IMG_20221121_230114.jpg"
    = Ok (Some "IMG_20221121_230114.jpg", None)
  ∧ strptime (slice 4 19 "IMG_20221121_230114.jpg") "%Y%m%d_%H%M%S"
    = Ok (whole_second (mk_datetime 2022 11 21 23 1 14 0)).
Proof.
  split; [reflexivity|]. split; [reflexivity|].
  apply (camera_native_unchanged (mk_datetime 2022 11 21 23 1 14 0) "20221121"
           "IMG_20221121_230114.jpg"); reflexivity.
Defined.

(** C10: the third branch looks at two characters only.  [16_party.jpg]
    takes it, its first 13 characters are not all digits, [int] raises
    [ValueError], and the loop over the photos stops there with nothing
    logged or staged for the file. *)
Theorem epoch_dispatch_unchecked date f tg rest st :
  slice 0 2 "16_party.jpg" = "16"
  ∧ forallb is_digit (list_ascii_of_string (slice 0 13 "16_party.jpg")) = false
  ∧ int (slice 0 13 "16_party.jpg") = Raise ValueError
  ∧ rename date "16_party.jpg" = Raise ValueError
  ∧ for_each (first_pass_photo date) (mk_entry "16_party.jpg" f tg :: rest) st
    = (st, Raise ValueError).
Proof. repeat split. Qed.

(** ** Second pass *)

Lemma tag_only_survives : tag_survives tag_only_load tag_only_dump.
Proof.
  intros d b Hdump. unfold tag_only_dump in Hdump. injection Hdump as <-.
  destruct (datetime_tag d) as [v|]; simpl; eexists; (split; [reflexivity|]).
  - unfold datetime_tag. rewrite lookup_singleton_eq. simpl.
    apply lookup_singleton_eq.
  - unfold datetime_tag. rewrite lookup_singleton_eq. reflexivity.
Qed.

Lemma exif_stamp_truthy t : truthy (Some (exif_stamp t)) = true.
Proof. reflexivity. Qed.

Section second_pass_facts.

Variable piexif_load : string → outcome exif_dict.
Variable piexif_dump : exif_dict → outcome string.
Variable jpeg_encode : string → string.

Local Abbreviation second_pass_photo :=
  (second_pass_photo piexif_load piexif_dump jpeg_encode).

(** Line 320 reads [im.info["exif"]] outside the [try]. *)
Lemma no_exif_KeyError photo_name im :
  info_exif im = None → second_pass_photo photo_name im = Raise KeyError.
Proof.
  intros H. unfold Notebook.second_pass_photo, info_getitem_exif.
  rewrite H. reflexivity.
Qed.

(** A populated tag: nothing is written. *)
Lemma populated_tag_kept photo_name im b d t :
  info_exif im = Some b →
  piexif_load b = Ok d →
  truthy (datetime_tag d) = true →
  strptime (slice 4 19 photo_name) "%Y%m%d_%H%M%S" = Ok t →
  second_pass_photo photo_name im = Ok (AlreadyPresent, im).
Proof.
  intros Hexif Hload Htag Ht.
  unfold Notebook.second_pass_photo, info_getitem_exif, load.
  rewrite Hexif, bind_Ok, Hload, bind_Ok. simpl try_except.
  rewrite bind_Ok. cbv zeta. rewrite Ht, bind_Ok, strftime_exif_stamp, bind_Ok.
  unfold datetime_tag in Htag.
  destruct (d !! "Exif") as [exif|]; [|discriminate]. simpl in Htag.
  rewrite Htag. reflexivity.
Qed.

(** The ways the body of the loop returns. *)
Lemma second_pass_photo_inv photo_name im r im' :
  second_pass_photo photo_name im = Ok (r, im') →
  ∃ b d t exif,
    info_exif im = Some b ∧ piexif_load b = Ok d
    ∧ strptime (slice 4 19 photo_name) "%Y%m%d_%H%M%S" = Ok t
    ∧ d !! "Exif" = Some exif
    ∧ ((truthy (exif !! EXIF_DATETIME_TAG) = true ∧ r = AlreadyPresent ∧ im' = im)
       ∨ (truthy (exif !! EXIF_DATETIME_TAG) = false ∧ r = Written
          ∧ ∃ exif_bytes,
              piexif_dump (<["Exif" := <[EXIF_DATETIME_TAG := exif_stamp t]> exif]> d)
              = Ok exif_bytes
              ∧ im' = save jpeg_encode im exif_bytes)).
Proof.
  unfold Notebook.second_pass_photo, info_getitem_exif, load. intros H.
  destruct (info_exif im) as [b|]; [|discriminate]. rewrite bind_Ok in H.
  destruct (piexif_load b) as [d| |] eqn:Hload; try discriminate.
  rewrite bind_Ok in H. simpl try_except in H. rewrite bind_Ok in H.
  cbv zeta in H.
  destruct (strptime _ _) as [t| |] eqn:Ht; try discriminate.
  rewrite bind_Ok, strftime_exif_stamp, bind_Ok in H.
  destruct (d !! "Exif") as [exif|] eqn:Hifd; [|discriminate].
  exists b, d, t, exif. repeat (split; [done|]).
  destruct (truthy (exif !! EXIF_DATETIME_TAG)); simpl in H.
  - left. injection H as <- <-. done.
  - right. destruct (piexif_dump _) as [exif_bytes| |] eqn:Hdump; try discriminate.
    rewrite bind_Ok in H. injection H as <- <-. eauto.
Qed.

Hypothesis codec : tag_survives piexif_load piexif_dump.

(** After a write, [load] finds the time of the name in the tag. *)
Lemma written_tag photo_name im im' :
  second_pass_photo photo_name im = Ok (Written, im') →
  ∃ t b d,
    strptime (slice 4 19 photo_name) "%Y%m%d_%H%M%S" = Ok t
    ∧ info_exif im' = Some b ∧ piexif_load b = Ok d
    ∧ datetime_tag d = Some (exif_stamp t).
Proof.
  intros H.
  destruct (second_pass_photo_inv _ _ _ _ H)
    as (b & d & t & exif & Hexif & Hload & Ht & Hifd & [(_ & Hr & _)|(_ & _ & Hw)]);
    [discriminate|].
  destruct Hw as (exif_bytes & Hdump & ->).
  destruct (codec _ _ Hdump) as (d' & Hload' & Htag).
  exists t, exif_bytes, d'. repeat (split; [done|]).
  rewrite Htag. unfold datetime_tag. rewrite lookup_insert_eq. simpl.
  apply lookup_insert_eq.
Qed.

(** C8: a file whose DateTimeOriginal tag is populated is left as it is
    ([AlreadyPresent]); and on the file that one run of the body of the
    second loop leaves, a second run finds the tag and leaves the file as it
    is. *)
Theorem metadata_writer_idempotent :
  (∀ photo_name im b d t,
     info_exif im = Some b → piexif_load b = Ok d →
     truthy (datetime_tag d) = true →
     strptime (slice 4 19 photo_name) "%Y%m%d_%H%M%S" = Ok t →
     second_pass_photo photo_name im = Ok (AlreadyPresent, im))
  ∧ (∀ photo_name im r im',
       second_pass_photo photo_name im = Ok (r, im') →
       second_pass_photo photo_name im' = Ok (AlreadyPresent, im')).
Proof.
  split; [apply populated_tag_kept|].
  intros photo_name im r im' H. destruct r.
  - destruct (written_tag _ _ _ H) as (t & b & d & Ht & Hexif & Hload & Htag).
    eapply populated_tag_kept; [exact Hexif|exact Hload| |exact Ht].
    rewrite Htag. apply exif_stamp_truthy.
  - destruct (second_pass_photo_inv _ _ _ _ H)
      as (b & d & t & exif & _ & _ & _ & _ & [(_ & _ & ->)|(_ & Hr & _)]);
      [exact H|discriminate].
Qed.

(** C9, amended: when the second pass writes the tag (it was absent or
    empty), the time a reader parses from the tag is the time that positions
    4 to 18 of the file name spell, the noon of a fallback name included. *)
Theorem written_tag_agrees_with_name photo_name im im' :
  second_pass_photo photo_name im = Ok (Written, im') →
  ∃ t, strptime (slice 4 19 photo_name) "%Y%m%d_%H%M%S" = Ok t
       ∧ tag_timestamp piexif_load im' = Ok t.
Proof.
  intros H.
  destruct (written_tag _ _ _ H) as (t & b & d & Ht & Hexif & Hload & Htag).
  exists t. split; [exact Ht|].
  unfold tag_timestamp, load. rewrite Hexif, Hload, bind_Ok, Htag.
  destruct (strptime_valid _ _ _ Ht) as [Hv Hw].
  rewrite strptime_exif_stamp by exact Hv. by rewrite Hw.
Qed.

End second_pass_facts.

(** C2, on the code: a staged file without any EXIF block stops the second
    pass with [KeyError] at line 320, before the [try] that would have given
    it an empty block; the specification has the tag written. *)
Theorem no_metadata_block_raises piexif_load piexif_dump jpeg_encode px :
  second_pass_photo piexif_load piexif_dump jpeg_encode
    "IMG_20221122_120000_1669256881625.jpg" (mk_image px None)
  = Raise KeyError.
Proof. reflexivity. Qed.

Lemma metadata_writer_idempotent_witness :
  tag_survives tag_only_load tag_only_dump
  ∧ second_pass_photo tag_only_load tag_only_dump id
      "IMG_20221125_120253.jpg" (mk_image "px" (Some EmptyString))
    = Ok (Written, mk_image "px" (Some "T2022:11:25 12:02:53"))
  ∧ second_pass_photo tag_only_load tag_only_dump id
      "IMG_20221125_120253.jpg" (mk_image "px" (Some "T2022:11:25 12:02:53"))
    = Ok (AlreadyPresent, mk_image "px" (Some "T2022:11:25 12:02:53")).
Proof.
  assert (H1 : second_pass_photo tag_only_load tag_only_dump id
                 "IMG_20221125_120253.jpg" (mk_image "px" (Some EmptyString))
               = Ok (Written, mk_image "px" (Some "T2022:11:25 12:02:53")))
    by (vm_compute; reflexivity).
  split; [exact tag_only_survives|]. split; [exact H1|].
  exact (proj2 (metadata_writer_idempotent tag_only_load tag_only_dump id
                  tag_only_survives) _ _ _ _ H1).
Defined.

Lemma written_tag_agrees_with_name_witness :
  tag_survives tag_only_load tag_only_dump
  ∧ second_pass_photo tag_only_load tag_only_dump id
      "IMG_20221122_120000_1669256881625.jpg" (mk_image "px" (Some EmptyString))
    = Ok (Written, mk_image "px" (Some "T2022:11:22 12:00:00"))
  ∧ ∃ t, strptime (slice 4 19 "IMG_20221122_120000_1669256881625.jpg")
           "%Y%m%d_%H%M%S" = Ok t
         ∧ tag_timestamp tag_only_load (mk_image "px" (Some "T2022:11:22 12:00:00"))
           = Ok t.
Proof.
  assert (H1 : second_pass_photo tag_only_load tag_only_dump id
                 "IMG_20221122_120000_1669256881625.jpg" (mk_image "px" (Some EmptyString))
               = Ok (Written, mk_image "px" (Some "T2022:11:22 12:00:00")))
    by (vm_compute; reflexivity).
  split; [exact tag_only_survives|]. split; [exact H1|].
  exact (written_tag_agrees_with_name tag_only_load tag_only_dump id
           tag_only_survives _ _ _ H1).
Defined.

(** C9 as the specification words it, for every file that leaves the second
    pass: the camera file [IMG_20221121_230114.jpg] of the notebook comes
    with the tag [2022:11:21 22:01:14], which the second pass keeps, an hour
    away from its name. *)
Lemma tag_and_name_can_disagree :
  ¬ ∀ piexif_load piexif_dump jpeg_encode,
      tag_survives piexif_load piexif_dump →
      ∀ photo_name im r im',
        second_pass_photo piexif_load piexif_dump jpeg_encode photo_name im
        = Ok (r, im') →
        tag_timestamp piexif_load im'
        = strptime (slice 4 19 photo_name) "%Y%m%d_%H%M%S".
Proof.
  intros H.
  specialize (H tag_only_load tag_only_dump id tag_only_survives
                "IMG_20221121_230114.jpg"
                (mk_image "px" (Some "T2022:11:21 22:01:14"))
                AlreadyPresent
                (mk_image "px" (Some "T2022:11:21 22:01:14"))
                ltac:(vm_compute; reflexivity)).
  vm_compute in H. discriminate H.
Qed.

(** ** The two passes on the folder of the notebook *)

(** The folder [20221125 scenery]: the tagged [PXL] photo is staged under its
    local time and gets its tag in the second pass; the untagged [IMG] photo
    is left where it is. *)
Example scenery_folder :
  let photo := mk_image "pixels" (Some EmptyString) in
  let st0 := mk_state ∅ ∅ [] in
  let st1 := mk_state {["IMG_20221125_120253.jpg" := photo]} ∅ [] in
  first_pass_folder "20221125"
    [mk_entry "PXL_20221125_040253498.jpg" photo ["Blue"];
     mk_entry "IMG_20221125_135506.jpg" photo []] st0
  = (st1, Ok ())
  ∧ ∃ st2, second_pass tag_only_load tag_only_dump id st1 = (st2, Ok ())
           ∧ tmp st2 = ∅
           ∧ final st2 !! "IMG_20221125_120253.jpg"
             = Some (mk_image "pixels" (Some "T2022:11:25 12:02:53")).
Proof.
  split; [vm_compute; reflexivity|].
  eexists. split; [vm_compute; reflexivity|]. split; reflexivity.
Qed.

(** * More of the code *)

(** ** Ordinals and dates are two views of a day *)

Lemma is_leap_period y k : is_leap (y + 400 * k) = is_leap y.
Proof.
  unfold is_leap.
  replace ((y + 400 * k) mod 4) with (y mod 4)
    by (replace (y + 400 * k) with (y + (100 * k) * 4) by lia;
        symmetry; apply Z_mod_plus_full).
  replace ((y + 400 * k) mod 100) with (y mod 100)
    by (replace (y + 400 * k) with (y + (4 * k) * 100) by lia;
        symmetry; apply Z_mod_plus_full).
  replace ((y + 400 * k) mod 400) with (y mod 400)
    by (replace (y + 400 * k) with (y + k * 400) by lia;
        symmetry; apply Z_mod_plus_full).
  reflexivity.
Qed.

Lemma days_in_month_period y k m :
  days_in_month (y + 400 * k) m = days_in_month y m.
Proof. unfold days_in_month. by rewrite is_leap_period. Qed.

Lemma ymd2ord_period y k m d :
  ymd2ord (y + 400 * k) m d = ymd2ord y m d + DI400Y * k.
Proof.
  unfold ymd2ord, days_before_month, days_before_year, DI400Y.
  rewrite is_leap_period. cbv zeta. div_mod_lia.
Qed.

Lemma ord2ymd_period n k :
  ord2ymd (n + DI400Y * k)
  = ((ord2ymd n).1.1 + 400 * k, (ord2ymd n).1.2, (ord2ymd n).2).
Proof.
  unfold ord2ymd. cbv zeta.
  replace (n + DI400Y * k - 1) with (n - 1 + k * DI400Y) by lia.
  rewrite Z_div_plus_full by (unfold DI400Y; lia). rewrite Z_mod_plus_full.
  destruct ((_ =? 4) || (_ =? 4)); simpl.
  - f_equal. f_equal. lia.
  - destruct (month_day _ _) as [m d]. simpl. f_equal. f_equal. lia.
Qed.

Lemma ord_round_trip_cycle n :
  1 ≤ n ≤ DI400Y →
  ymd2ord (ord2ymd n).1.1 (ord2ymd n).1.2 (ord2ymd n).2 = n.
Proof.
  intros Hn. unfold DI400Y in Hn.
  set (i := (n - 1) / 773). set (j := (n - 1) mod 773).
  assert (Hi : 0 ≤ i < Z.of_nat 189) by (unfold i; div_mod_lia).
  assert (Hj : 0 ≤ j < Z.of_nat 773) by (unfold j; div_mod_lia).
  assert (Hij : i * 773 + j + 1 = n) by (unfold i, j; div_mod_lia).
  clearbody i j. clear Hn.
  assert (Hall : forall_upto 189 (λ i, forall_upto 773
                   (λ j, ord_round_trip_ok (i * 773 + j))) = true)
    by (vm_compute; reflexivity).
  pose proof (forall_upto_spec _ _ Hall i Hi) as H1. cbv beta in H1.
  pose proof (forall_upto_spec _ _ H1 j Hj) as H. cbv beta in H.
  unfold ord_round_trip_ok in H. rewrite Hij in H.
  destruct (ord2ymd n) as [[y m] d]. simpl. by apply Z.eqb_eq in H.
Qed.

(** The date of a day has that day for ordinal. *)
Lemma ymd2ord_ord2ymd n :
  1 ≤ n → ymd2ord (ord2ymd n).1.1 (ord2ymd n).1.2 (ord2ymd n).2 = n.
Proof.
  intros Hn.
  set (k := (n - 1) / DI400Y). set (n0 := (n - 1) mod DI400Y + 1).
  assert (Hsplit : n = n0 + DI400Y * k)
    by (unfold n0, k, DI400Y; div_mod_lia).
  assert (Hn0 : 1 ≤ n0 ≤ DI400Y) by (unfold n0, DI400Y; div_mod_lia).
  rewrite Hsplit, ord2ymd_period. simpl.
  rewrite ymd2ord_period, ord_round_trip_cycle by exact Hn0. reflexivity.
Qed.

Lemma date_round_trip_cycle y m d :
  1 ≤ y ≤ 400 → 1 ≤ m ≤ 12 → 1 ≤ d ≤ days_in_month y m →
  ord2ymd (ymd2ord y m d) = (y, m, d).
Proof.
  intros Hy Hm Hd.
  pose proof (days_in_month_le y m Hm) as Hd31.
  assert (Hall : forall_upto 401 (λ y, forall_upto 13 (λ m, forall_upto 32
                   (λ d, date_round_trip_ok y m d))) = true)
    by (vm_compute; reflexivity).
  pose proof (forall_upto_spec _ _ Hall y ltac:(lia)) as H1. cbv beta in H1.
  pose proof (forall_upto_spec _ _ H1 m ltac:(lia)) as H2. cbv beta in H2.
  pose proof (forall_upto_spec _ _ H2 d ltac:(lia)) as H3. cbv beta in H3.
  unfold date_round_trip_ok in H3.
  apply orb_true_iff in H3 as [H3|H3].
  - apply negb_true_iff in H3. rewrite !andb_false_iff in H3.
    rewrite !Z.leb_gt in H3. lia.
  - destruct (ord2ymd _) as [[y' m'] d'].
    rewrite !andb_true_iff, !Z.eqb_eq in H3. destruct H3 as [[-> ->] ->].
    reflexivity.
Qed.

(** The day of a date has that date. *)
Lemma ord2ymd_ymd2ord y m d :
  1 ≤ y → 1 ≤ m ≤ 12 → 1 ≤ d ≤ days_in_month y m →
  ord2ymd (ymd2ord y m d) = (y, m, d).
Proof.
  intros Hy Hm Hd.
  set (k := (y - 1) / 400). set (y0 := (y - 1) mod 400 + 1).
  assert (Hsplit : y = y0 + 400 * k) by (unfold y0, k; div_mod_lia).
  assert (Hy0 : 1 ≤ y0 ≤ 400) by (unfold y0; div_mod_lia).
  rewrite Hsplit in Hd |- *. rewrite days_in_month_period in Hd.
  rewrite ymd2ord_period, ord2ymd_period.
  rewrite date_round_trip_cycle by assumption. reflexivity.
Qed.

Lemma toordinal_range t :
  valid t = true → 0 < toordinal t ≤ MAXORDINAL.
Proof.
  intros Hv. unfold valid, valid_date, MINYEAR, MAXYEAR in Hv.
  rewrite !andb_true_iff, !Z.leb_le in Hv.
  destruct Hv as [(((((Hy1 & Hy2) & Hm1) & Hm2) & Hd1) & Hd2) _].
  unfold toordinal, ymd2ord, MAXORDINAL, days_before_year, days_before_month.
  unfold days_in_month in Hd2. cbv zeta.
  assert (Hleap : year t = 9999 → is_leap (year t) = false)
    by (intros ->; reflexivity).
  assert (Hcases : month t = 1 ∨ month t = 2 ∨ month t = 3 ∨ month t = 4
                   ∨ month t = 5 ∨ month t = 6 ∨ month t = 7 ∨ month t = 8
                   ∨ month t = 9 ∨ month t = 10 ∨ month t = 11 ∨ month t = 12)
    by lia.
  destruct (is_leap (year t));
    repeat (destruct Hcases as [Hc|Hcases];
            [rewrite Hc in *; simpl in *; unfold table in *; simpl in *;
             div_mod_lia|]);
    rewrite Hcases in *; simpl in *; unfold table in *; simpl in *; div_mod_lia.
Qed.
